(** * EventHubConnectionConfig: addresses and audiences of an Event Hub

    A shallow embedding of the TypeScript module [EventHubConnectionConfig]
    (its [create] function attaches six methods to a connection config
    object) and the properties of the six methods.

    - [Js]: the JavaScript values, [typeof], [ToString], [== undefined],
      errors and completions the methods rely on.
    - [Eff]: the effect the methods live in: they read the fields of the one
      [config] object their closures capture, and they may throw.
    - [EventHubConnectionConfig]: the six methods, line by line, and the
      theorems about them. *)

From Stdlib Require Import String Ascii ZArith List Bool DecimalString.
From Stdlib Require Import SpecFloat.
Import ListNotations.
Local Open Scope string_scope.
#[local] Set Warnings "-register-all".

(** ** String helpers *)

(** [remove_char ch s] drops every occurrence of [ch] from [s]. *)
Fixpoint remove_char (ch : ascii) (s : string) : string :=
  match s with
  | EmptyString => EmptyString
  | String x rest =>
      if Ascii.eqb x ch then remove_char ch rest
      else String x (remove_char ch rest)
  end.

(** [is_infix p s]: [p] occurs in [s] as a contiguous run of characters. *)
Fixpoint is_infix (p s : string) : bool :=
  String.prefix p s
  || match s with
     | EmptyString => false
     | String _ rest => is_infix p rest
     end.

(** [has_char ch s]: the character [ch] occurs in [s]. *)
Fixpoint has_char (ch : ascii) (s : string) : bool :=
  match s with
  | EmptyString => false
  | String x rest => Ascii.eqb x ch || has_char ch rest
  end.

(** ** JavaScript values *)

Module Js.

(** *** Numbers

    A JavaScript number is an IEEE 754 binary64 value, with a single NaN:
    a [spec_float] that is valid for a precision of 53 bits and a largest
    exponent of 1024.  A finite non-zero value is [S754_finite s m e], of
    magnitude [m * 2^e], with [m] and [e] in canonical form. *)

Definition prec : Z := 53.
Definition emax : Z := 1024.

Definition is_binary64 (f : spec_float) : bool := valid_binary prec emax f.

Record number : Type := {
  float : spec_float;
  float_ok : is_binary64 float = true
}.

Definition NaN : number := {| float := S754_nan; float_ok := eq_refl |}.

Definition Infinity (negative : bool) : number :=
  {| float := S754_infinity negative; float_ok := eq_refl |}.

Definition NegZero : number := {| float := S754_zero true; float_ok := eq_refl |}.

(** The number with the given representation, which is checked to be a
    binary64; one that is not stands for no number and gives NaN. *)
Definition of_float (f : spec_float) : number :=
  match is_binary64 f as b return is_binary64 f = b -> number with
  | true => fun H => {| float := f; float_ok := H |}
  | false => fun _ => NaN
  end eq_refl.

(** The Number value of [m * 2^e]: the binary64 nearest to it, ties to the
    even mantissa, and an infinity past the largest one.  [dyadic 3 (-1)] is
    1.5. *)
Definition dyadic (m e : Z) : number :=
  of_float (binary_normalize prec emax m e false).

(** The Number value of an integer, as an integer literal or an integer
    computation gives it.  It is the integer itself up to [2^53] in
    magnitude, and the nearest binary64 beyond. *)
Definition Int (z : Z) : number := dyadic z 0.

(** The decimal digits of an integer, with a minus sign if negative. *)
Definition decimal (z : Z) : string := NilZero.string_of_int (Z.to_int z).

Section Printing.

Local Open Scope Z_scope.

(** How many decimal digits a positive integer has. *)
Definition ndigits (z : Z) : Z := Z.of_nat (String.length (decimal z)).

(** A positive integer without its trailing decimal zeros. *)
Fixpoint strip_zeros (fuel : nat) (z : Z) : Z :=
  match fuel with
  | O => z
  | S fuel' =>
      if (0 <? z) && (z mod 10 =? 0) then strip_zeros fuel' (z / 10) else z
  end.

Fixpoint zeros (n : nat) : string :=
  match n with
  | O => ""
  | S n' => String "0" (zeros n')
  end.

(** [v] lies in the interval from [lo] to [hi], ends included or not. *)
Definition inside (closed : bool) (lo hi v : Z) : bool :=
  if closed then (lo <=? v) && (v <=? hi) else (lo <? v) && (v <? hi).

(** Number::toString, step 5: the integers [n], [k] and [s] with [k] as small
    as possible such that [s * 10^(n-k)] has [k] digits and is a decimal
    whose Number value is the number printed; if several [s] will do, the
    one nearest to the number.

    [x] is the number and [lo] and [hi] are the ends of the interval of the
    reals that round to it, all three as integers on a common decimal scale,
    [x] having [len] digits.  For [k] = 1, 2, ... the two decimals of [k]
    digits around [x] are [below] and [above]; the first [k] at which one of
    them rounds to the number gives the result, returned on the same scale.
    Seventeen digits always suffice. *)
Fixpoint shortest (fuel : nat) (k len : Z) (closed : bool) (x lo hi : Z) : Z :=
  match fuel with
  | O => x
  | S fuel' =>
      let u := 10 ^ (len - k) in
      let below := (x / u) * u in
      let above := below + u in
      match inside closed lo hi below, inside closed lo hi above with
      | true, true =>
          match (x - below ?= above - x) with
          | Lt => below
          | Gt => above
          | Eq => if Z.even (x / u) then below else above
          end
      | true, false => below
      | false, true => above
      | false, false => shortest fuel' (k + 1) len closed x lo hi
      end
  end.

(** Number::toString, steps 7 to 11: the [k] digits of [s] laid out for the
    decimal exponent [n] (the value is [0.digits * 10^n]): as an integer
    with zeros appended, with a decimal point inside, with zeros after
    [0.], or with an exponent. *)
Definition layout (digits : string) (n : Z) : string :=
  let k := Z.of_nat (String.length digits) in
  if (k <=? n) && (n <=? 21) then
    (digits ++ zeros (Z.to_nat (n - k)))%string
  else if (0 <? n) && (n <=? 21) then
    (substring 0 (Z.to_nat n) digits ++ "."
     ++ substring (Z.to_nat n) (Z.to_nat (k - n)) digits)%string
  else if (-6 <? n) && (n <=? 0) then
    ("0." ++ zeros (Z.to_nat (- n)) ++ digits)%string
  else
    let e := n - 1 in
    let sign := if 0 <=? e then "+" else "-" in
    if k =? 1 then
      (digits ++ "e" ++ sign ++ decimal (Z.abs e))%string
    else
      (substring 0 1 digits ++ "." ++ substring 1 (Z.to_nat (k - 1)) digits
       ++ "e" ++ sign ++ decimal (Z.abs e))%string.

(** Number::toString of the positive finite number [m * 2^e].

    In units of [2^(e-2)] the number is [4m].  The reals that round to it
    reach half way to its neighbours: up to [4m + 2], and down to [4m - 2],
    or to [4m - 1] where the number is a power of two above the subnormal
    range, whose lower neighbour is twice as near.  The ends themselves round
    to it when [m] is even.  Multiplying by [2^(e-2)], or by [5^(2-e)] over
    [10^(2-e)], and by [10^17] over [10^17], puts the three on a decimal
    scale with [f] digits after the point and at least eighteen before the
    end. *)
Definition positive_to_string (m : positive) (e : Z) : string :=
  let q := e - 2 in
  let x := 4 * Zpos m in
  let lo :=
    if (Zpos m =? 2 ^ (prec - 1)) && (emin prec emax <? e) then x - 1
    else x - 2 in
  let hi := x + 2 in
  let scale := if 0 <=? q then 2 ^ q * 10 ^ 17 else 5 ^ (- q) * 10 ^ 17 in
  let f := if 0 <=? q then 17 else - q + 17 in
  let v := shortest 17 1 (ndigits (x * scale)) (Z.even (Zpos m))
             (x * scale) (lo * scale) (hi * scale) in
  layout (decimal (strip_zeros 1200 v)) (ndigits v - f).

End Printing.

(** Number::toString, radix 10. *)
Definition NumberToString (n : number) : string :=
  match float n with
  | S754_nan => "NaN"
  | S754_zero _ => "0"
  | S754_infinity false => "Infinity"
  | S754_infinity true => "-Infinity"
  | S754_finite false m e => positive_to_string m e
  | S754_finite true m e => String "-" (positive_to_string m e)
  end.

(** Number.isInteger. *)
Definition isInteger (n : number) : bool :=
  match float n with
  | S754_zero _ => true
  | S754_finite _ m e => ((0 <=? e) || (Zpos m mod 2 ^ (- e) =? 0))%Z
  | S754_infinity _ | S754_nan => false
  end.

(** A value as it reaches a function at run time, whatever the parameter's
    declared type. *)
Inductive value : Type :=
| Undefined
| Null
| Boolean (b : bool)
| Number (n : number)
| Str (s : string)
| BigInt (z : Z)
| Symbol (description : option string)
| Object (properties : list (string * value))
| Array (elements : list value)
| Function (name : string).

(** The [typeof] operator. *)
Definition typeof (v : value) : string :=
  match v with
  | Undefined => "undefined"
  | Null => "object"
  | Boolean _ => "boolean"
  | Number _ => "number"
  | Str _ => "string"
  | BigInt _ => "bigint"
  | Symbol _ => "symbol"
  | Object _ => "object"
  | Array _ => "object"
  | Function _ => "function"
  end.

(** [a !== b] on strings. *)
Definition strict_neq (a b : string) : bool := negb (String.eqb a b).

(** [v == undefined]: loose equality with [undefined] holds for
    [undefined] and [null] and for nothing else. *)
Definition loose_eq_undefined (v : value) : bool :=
  match v with
  | Undefined | Null => true
  | _ => false
  end.

(** ToString, as a template literal applies it to a substitution.  On a
    primitive it is a plain function.  On a symbol it throws, and on an
    object it runs the object's own [toString]/[valueOf]; the model has no
    result for those ([None]), and the methods never convert one. *)
Definition ToString (v : value) : option string :=
  match v with
  | Undefined => Some "undefined"
  | Null => Some "null"
  | Boolean true => Some "true"
  | Boolean false => Some "false"
  | Number n => Some (NumberToString n)
  | Str s => Some s
  | BigInt z => Some (decimal z)
  | Symbol _ | Object _ | Array _ | Function _ => None
  end.

(** ToBoolean of an optional string parameter ([None] is [undefined]):
    [undefined] and the empty string are falsy. *)
Definition ToBoolean (s : option string) : bool :=
  match s with
  | None => false
  | Some "" => false
  | Some _ => true
  end.

(** ToString of an optional string parameter. *)
Definition OptToString (s : option string) : string :=
  match s with
  | None => "undefined"
  | Some s => s
  end.

(** An error object: its [name] is the constructor's name. *)
Record error : Type := { name : string; message : string }.

(** [new TypeError(msg)]. *)
Definition TypeError (msg : string) : error :=
  {| name := "TypeError"; message := msg |}.

(** How a call ends: it returns a value or it throws. *)
Inductive completion (A : Type) : Type :=
| Return (a : A)
| Throw (e : error).
Arguments Return {A} a.
Arguments Throw {A} e.

(** [typeof v] is "string" or "number": what the methods accept. *)
Definition is_string_or_number (v : value) : bool :=
  String.eqb (typeof v) "string" || String.eqb (typeof v) "number".

Definition is_string (v : value) : bool := String.eqb (typeof v) "string".

(** A number with an integral value. *)
Definition is_integer (v : value) : bool :=
  match v with
  | Number n => isInteger n
  | _ => false
  end.

End Js.

(** Modelled from the spec: the [ConnectionConfig] object that
    [ConnectionConfig.create] returns (module [./connectionConfig], which is
    imported and not part of these sources).  The spec gives it the fields
    [endpoint] and [entityPath], both strings; whatever else the object
    carries is kept in [properties]. *)
Record ConnectionConfig : Type := {
  endpoint : string;
  entityPath : string;
  properties : list (string * Js.value)
}.

(** ** The effect of a method call

    The closures [create] attaches all capture the same [config] object and
    read its fields when they are called.  A call is a function from the
    object's state to a completion and the object's state afterwards, so a
    write to the object, if there were one, would show. *)

Module Eff.
Import Js.

Definition M (A : Type) : Type :=
  ConnectionConfig -> completion A * ConnectionConfig.

Definition ret {A} (a : A) : M A := fun config => (Return a, config).

Definition bind {A B} (m : M A) (k : A -> M B) : M B :=
  fun config =>
    match m config with
    | (Return a, config') => k a config'
    | (Throw e, config') => (Throw e, config')
    end.

(** [throw e] *)
Definition throw {A} (e : error) : M A := fun config => (Throw e, config).

(** [config.f] for a field [f]. *)
Definition read {A} (f : ConnectionConfig -> A) : M A :=
  fun config => (Return (f config), config).

(** A template substitution [${v}] of a run-time value. *)
Definition subst (v : value) : M string :=
  match ToString v with
  | Some s => ret s
  | None => throw (TypeError "Cannot convert value to a string")
  end.

(** What the call returned or threw, and the object afterwards. *)
Definition outcome {A} (m : M A) (config : ConnectionConfig) : completion A :=
  fst (m config).
Definition after {A} (m : M A) (config : ConnectionConfig) : ConnectionConfig :=
  snd (m config).

(** The call ends by throwing a [TypeError]. *)
Definition throws_TypeError {A} (m : M A) (config : ConnectionConfig) : Prop :=
  exists msg, outcome m config = Throw (TypeError msg).

End Eff.

(** ** The methods [create] attaches to the config *)

Module EventHubConnectionConfig.
Import Js Eff.

Notation "x <- m ;; k" := (bind m (fun x => k))
  (at level 61, m at next level, right associativity).

(** The parameters are as the code sees them at run time.  [partitionId] is
    any value: the methods test its type themselves, and a call without the
    argument binds it to [Undefined].  [consumergroup] is declared
    [consumergroup?: string] and is never tested for its type: it is a
    string, or [None] when the argument is left out. *)

Definition getEventHubManagementAudience : M string :=
  e <- read endpoint ;;
  p <- read entityPath ;;
  ret (e ++ p ++ "/$management").

Definition getEventHubManagementAddress : M string :=
  p <- read entityPath ;;
  ret (p ++ "/$management").

Definition getEventHubSenderAudience (partitionId : value) : M string :=
  if negb (loose_eq_undefined partitionId) then
    if strict_neq (typeof partitionId) "string"
       && strict_neq (typeof partitionId) "number"
    then throw (TypeError "'partitionId' must be of type 'string' or 'number'.")
    else
      e <- read endpoint ;;
      p <- read entityPath ;;
      id <- subst partitionId ;;
      ret (e ++ p ++ "/Partitions/" ++ id)
  else
    e <- read endpoint ;;
    p <- read entityPath ;;
    ret (e ++ p).

Definition getEventHubSenderAddress (partitionId : value) : M string :=
  if negb (loose_eq_undefined partitionId) then
    if strict_neq (typeof partitionId) "string"
       && strict_neq (typeof partitionId) "number"
    then throw (TypeError "'partitionId' must be of type 'string' or 'number'.")
    else
      p <- read entityPath ;;
      id <- subst partitionId ;;
      ret (p ++ "/Partitions/" ++ id)
  else
    p <- read entityPath ;;
    ret p.

Definition getEventHubReceiverAudience
    (partitionId : value) (consumergroup : option string) : M string :=
  if loose_eq_undefined partitionId
     || (strict_neq (typeof partitionId) "string"
         && strict_neq (typeof partitionId) "number")
  then throw (TypeError ("'partitionId' is a required parameter and must be of "
                         ++ "type 'string' or 'number'"))
  else
    let consumergroup :=
      if negb (ToBoolean consumergroup) then Some "$default" else consumergroup in
    e <- read endpoint ;;
    p <- read entityPath ;;
    id <- subst partitionId ;;
    ret ((e ++ p ++ "/ConsumerGroups/" ++ OptToString consumergroup ++ "/")
         ++ "Partitions/" ++ id).

Definition getEventHubReceiverAddress
    (partitionId : value) (consumergroup : option string) : M string :=
  if loose_eq_undefined partitionId
     || (strict_neq (typeof partitionId) "string"
         && strict_neq (typeof partitionId) "number")
  then throw (TypeError ("'partitionId' is a required parameter and must be of "
                         ++ "type 'string' or 'number'"))
  else
    let consumergroup :=
      if negb (ToBoolean consumergroup) then Some "$default" else consumergroup in
    p <- read entityPath ;;
    id <- subst partitionId ;;
    ret (p ++ "/ConsumerGroups/" ++ OptToString consumergroup
           ++ "/Partitions/" ++ id).

(** A call of one of the six methods of the interface, with its arguments. *)
Inductive Call : Type :=
| ManagementAudience
| ManagementAddress
| SenderAudience (partitionId : value)
| SenderAddress (partitionId : value)
| ReceiverAudience (partitionId : value) (consumergroup : option string)
| ReceiverAddress (partitionId : value) (consumergroup : option string).

Definition invoke (c : Call) : M string :=
  match c with
  | ManagementAudience => getEventHubManagementAudience
  | ManagementAddress => getEventHubManagementAddress
  | SenderAudience p => getEventHubSenderAudience p
  | SenderAddress p => getEventHubSenderAddress p
  | ReceiverAudience p cg => getEventHubReceiverAudience p cg
  | ReceiverAddress p cg => getEventHubReceiverAddress p cg
  end.

(** The two error messages, as the code spells them. *)
Definition type_message : string :=
  "'partitionId' must be of type 'string' or 'number'.".
Definition required_message : string :=
  "'partitionId' is a required parameter and must be of type 'string' or 'number'".

(** The config of the spec's scenario, and one that differs from it only
    outside [endpoint] and [entityPath]. *)
Definition hub1 : ConnectionConfig :=
  {| endpoint := "sb://ns.example.net/"; entityPath := "hub1"; properties := [] |}.
Definition hub1' : ConnectionConfig :=
  {| endpoint := "sb://ns.example.net/"; entityPath := "hub1";
     properties := [("sharedAccessKeyName", Str "owner")] |}.

End EventHubConnectionConfig.

(** ** Facts about strings and values *)

Section Strings.

Lemma append_assoc (a b c : string) : (a ++ b) ++ c = a ++ (b ++ c).
Proof.
  induction a as [| ch a IH]; simpl.
  - reflexivity.
  - now rewrite IH.
Qed.

End Strings.

Import Js Eff EventHubConnectionConfig.

Section Values.

(** [typeof] answers "string" for strings only and "number" for numbers
    only. *)
Lemma string_or_number_inv (v : value) :
  is_string_or_number v = true ->
  (exists s, v = Str s) \/ (exists n, v = Number n).
Proof.
  destruct v; simpl; try discriminate; intros _; eauto.
Qed.

(** The type test of the methods is the negation of [is_string_or_number]. *)
Lemma type_test (v : value) :
  strict_neq (typeof v) "string" && strict_neq (typeof v) "number"
  = negb (is_string_or_number v).
Proof.
  unfold strict_neq, is_string_or_number. now rewrite negb_orb.
Qed.

(** A string or a number always converts, which is why no method reaches the
    conversions the model leaves out. *)
Lemma ToString_defined (v : value) :
  is_string_or_number v = true -> exists id, ToString v = Some id.
Proof.
  intros H. destruct (string_or_number_inv v H) as [[s ->] | [n ->]];
    simpl; eauto.
Qed.

(** A string or a number is not loosely equal to [undefined]. *)
Lemma string_or_number_present (v : value) :
  is_string_or_number v = true -> loose_eq_undefined v = false.
Proof.
  intros H. destruct (string_or_number_inv v H) as [[s ->] | [n ->]];
    reflexivity.
Qed.

Lemma required_message_eq :
  "'partitionId' is a required parameter and must be of "
  ++ "type 'string' or 'number'" = required_message.
Proof. reflexivity. Qed.

End Values.

(** ** Number::toString on known values

    The conversion, checked where its layouts change: integers up to 21
    digits are written out, with zeros where the binary64 has no more
    digits; from [1e21] on, and below [1e-6], the exponent form is used;
    integers past [2^53] are first rounded to a binary64. *)

Section Printed.

Local Open Scope Z_scope.

Example print_small_integers :
  NumberToString (Int 0) = "0" /\ NumberToString (Int 2) = "2"
  /\ NumberToString (Int (-15)) = "-15" /\ NumberToString NegZero = "0"
  /\ NumberToString (Int 9007199254740991) = "9007199254740991".
Proof. vm_compute. repeat split. Qed.

Example print_large_integers :
  NumberToString (Int (2 ^ 53 + 1)) = "9007199254740992"
  /\ NumberToString (Int (2 ^ 64)) = "18446744073709552000"
  /\ NumberToString (Int (10 ^ 20)) = "100000000000000000000"
  /\ NumberToString (Int (10 ^ 21)) = "1e+21"
  /\ NumberToString (Int (2 ^ 1024)) = "Infinity".
Proof. vm_compute. repeat split. Qed.

Example print_fractions :
  NumberToString (dyadic 3 (-1)) = "1.5"
  /\ NumberToString (dyadic (-3) (-2)) = "-0.75"
  /\ NumberToString (dyadic 3602879701896397 (-55)) = "0.1"
  /\ NumberToString (dyadic 4722366482869645 (-92)) = "9.5367431640625e-13"
  /\ NumberToString (dyadic 1 (-1074)) = "5e-324"
  /\ NumberToString (dyadic (2 ^ 53 - 1) 971) = "1.7976931348623157e+308".
Proof. vm_compute. repeat split. Qed.

Example print_other : NumberToString NaN = "NaN"
  /\ NumberToString (Infinity false) = "Infinity"
  /\ NumberToString (Infinity true) = "-Infinity".
Proof. repeat split. Qed.

Example sender_address_of_numbers :
  outcome (getEventHubSenderAddress (Number (Int (10 ^ 21)))) hub1
  = Return "hub1/Partitions/1e+21"
  /\ outcome (getEventHubSenderAddress (Number (dyadic 3 (-1)))) hub1
     = Return "hub1/Partitions/1.5"
  /\ outcome (getEventHubReceiverAddress (Number (Int (2 ^ 64))) None) hub1
     = Return "hub1/ConsumerGroups/$default/Partitions/18446744073709552000".
Proof. vm_compute. repeat split. Qed.

End Printed.

(** ** What each method does, case by case *)

Section Methods.

Variable config : ConnectionConfig.

(** Unfolds a call down to the state function it denotes. *)
Local Ltac step :=
  unfold getEventHubManagementAudience, getEventHubManagementAddress,
    getEventHubSenderAudience, getEventHubSenderAddress,
    getEventHubReceiverAudience, getEventHubReceiverAddress,
    subst, bind, read, ret, throw.

Lemma sender_address_partition (p : value) (id : string) :
  is_string_or_number p = true -> ToString p = Some id ->
  getEventHubSenderAddress p config
  = (Return (entityPath config ++ "/Partitions/" ++ id), config).
Proof.
  intros Hp Hid. step.
  rewrite (string_or_number_present p Hp), type_test, Hp, Hid.
  reflexivity.
Qed.

Lemma sender_audience_partition (p : value) (id : string) :
  is_string_or_number p = true -> ToString p = Some id ->
  getEventHubSenderAudience p config
  = (Return (endpoint config ++ entityPath config ++ "/Partitions/" ++ id),
     config).
Proof.
  intros Hp Hid. step.
  rewrite (string_or_number_present p Hp), type_test, Hp, Hid.
  reflexivity.
Qed.

Lemma sender_address_absent (p : value) :
  loose_eq_undefined p = true ->
  getEventHubSenderAddress p config = (Return (entityPath config), config).
Proof. intros Hp. step. now rewrite Hp. Qed.

Lemma sender_audience_absent (p : value) :
  loose_eq_undefined p = true ->
  getEventHubSenderAudience p config
  = (Return (endpoint config ++ entityPath config), config).
Proof. intros Hp. step. now rewrite Hp. Qed.

Lemma sender_address_rejects (p : value) :
  loose_eq_undefined p = false -> is_string_or_number p = false ->
  getEventHubSenderAddress p config = (Throw (TypeError type_message), config).
Proof. intros Hu Hp. step. now rewrite Hu, type_test, Hp. Qed.

Lemma sender_audience_rejects (p : value) :
  loose_eq_undefined p = false -> is_string_or_number p = false ->
  getEventHubSenderAudience p config = (Throw (TypeError type_message), config).
Proof. intros Hu Hp. step. now rewrite Hu, type_test, Hp. Qed.

(** A value that is not a string or a number fails the receivers' test,
    and so does a value loosely equal to [undefined], which is never a string
    or a number. *)
Lemma receiver_test (p : value) :
  loose_eq_undefined p
  || (strict_neq (typeof p) "string" && strict_neq (typeof p) "number")
  = negb (is_string_or_number p).
Proof.
  rewrite type_test. destruct (is_string_or_number p) eqn:Hp; simpl.
  - now rewrite (string_or_number_present p Hp).
  - apply orb_true_r.
Qed.

Lemma receiver_address_rejects (p : value) (cg : option string) :
  is_string_or_number p = false ->
  getEventHubReceiverAddress p cg config
  = (Throw (TypeError required_message), config).
Proof. intros Hp. step. now rewrite receiver_test, Hp. Qed.

Lemma receiver_audience_rejects (p : value) (cg : option string) :
  is_string_or_number p = false ->
  getEventHubReceiverAudience p cg config
  = (Throw (TypeError required_message), config).
Proof. intros Hp. step. now rewrite receiver_test, Hp. Qed.

Lemma receiver_address_partition (p : value) (cg : option string) (id : string) :
  is_string_or_number p = true -> ToString p = Some id ->
  getEventHubReceiverAddress p cg config
  = (Return (entityPath config ++ "/ConsumerGroups/"
             ++ OptToString (if ToBoolean cg then cg else Some "$default")
             ++ "/Partitions/" ++ id), config).
Proof.
  intros Hp Hid. step. rewrite receiver_test, Hp, Hid.
  now destruct (ToBoolean cg).
Qed.

Lemma receiver_audience_partition (p : value) (cg : option string) (id : string) :
  is_string_or_number p = true -> ToString p = Some id ->
  getEventHubReceiverAudience p cg config
  = (Return (endpoint config ++ entityPath config ++ "/ConsumerGroups/"
             ++ OptToString (if ToBoolean cg then cg else Some "$default")
             ++ "/Partitions/" ++ id), config).
Proof.
  intros Hp Hid. step. rewrite receiver_test, Hp, Hid.
  destruct (ToBoolean cg); cbv beta iota delta [negb];
    rewrite !append_assoc; reflexivity.
Qed.

(** A non-empty group is used as it is; an empty or missing one is
    [$default]. *)
Lemma group_given (cg : string) :
  cg <> "" -> OptToString (if ToBoolean (Some cg) then Some cg else Some "$default") = cg.
Proof. destruct cg; [congruence | reflexivity]. Qed.

End Methods.

(** ** Sender and receiver addresses *)

Section Addresses.

(** C1: for a partitionId that is a string or a number,
    getEventHubSenderAddress returns entityPath, then "/Partitions/", then
    the partitionId: the string itself, or the number as Number::toString
    prints it (what [+] and a template literal do with a number).  A value
    whose typeof is string or number is one or the other.  Called without an
    argument the method returns entityPath and nothing more.  The config is
    left as it was. *)
Theorem sender_address_spec (config : ConnectionConfig) :
  (forall s : string,
      getEventHubSenderAddress (Str s) config
      = (Return (entityPath config ++ "/Partitions/" ++ s), config))
  /\ (forall n : number,
         getEventHubSenderAddress (Number n) config
         = (Return (entityPath config ++ "/Partitions/" ++ NumberToString n),
            config))
  /\ (forall p : value,
         is_string_or_number p = true ->
         (exists s, p = Str s) \/ (exists n, p = Number n))
  /\ getEventHubSenderAddress Undefined config
     = (Return (entityPath config), config).
Proof.
  split; [| split; [| split]].
  - intros s. now apply sender_address_partition.
  - intros n. now apply sender_address_partition.
  - exact string_or_number_inv.
  - now apply sender_address_absent.
Qed.

Lemma sender_address_spec_witness :
  (exists s, Number (Int 2) = Str s) \/ (exists n, Number (Int 2) = Number n).
Proof.
  apply (proj1 (proj2 (proj2 (sender_address_spec hub1))) (Number (Int 2))).
  reflexivity.
Defined.

(** C4: for a partitionId that is a string or a number and a non-empty
    consumer group, getEventHubReceiverAddress returns
    entityPath/ConsumerGroups/<consumerGroup>/Partitions/<partitionId>, the
    partitionId being the string itself or the number as Number::toString
    prints it; with the group left out the group is $default.  On the config
    with endpoint sb://ns.example.net/ and entityPath hub1,
    getEventHubSenderAddress(2) is hub1/Partitions/2 and
    getEventHubReceiverAudience(2, "cg1") is
    sb://ns.example.net/hub1/ConsumerGroups/cg1/Partitions/2. *)
Theorem receiver_address_spec :
  (forall (config : ConnectionConfig) (s cg : string),
      cg <> "" ->
      getEventHubReceiverAddress (Str s) (Some cg) config
      = (Return (entityPath config ++ "/ConsumerGroups/" ++ cg
                 ++ "/Partitions/" ++ s), config))
  /\ (forall (config : ConnectionConfig) (n : number) (cg : string),
         cg <> "" ->
         getEventHubReceiverAddress (Number n) (Some cg) config
         = (Return (entityPath config ++ "/ConsumerGroups/" ++ cg
                    ++ "/Partitions/" ++ NumberToString n), config))
  /\ (forall (config : ConnectionConfig) (s : string),
         getEventHubReceiverAddress (Str s) None config
         = (Return (entityPath config
                    ++ "/ConsumerGroups/$default/Partitions/" ++ s), config))
  /\ (forall (config : ConnectionConfig) (n : number),
         getEventHubReceiverAddress (Number n) None config
         = (Return (entityPath config
                    ++ "/ConsumerGroups/$default/Partitions/"
                    ++ NumberToString n), config))
  /\ (forall p : value,
         is_string_or_number p = true ->
         (exists s, p = Str s) \/ (exists n, p = Number n))
  /\ endpoint hub1 = "sb://ns.example.net/"
  /\ entityPath hub1 = "hub1"
  /\ outcome (getEventHubSenderAddress (Number (Int 2))) hub1
     = Return "hub1/Partitions/2"
  /\ outcome (getEventHubReceiverAudience (Number (Int 2)) (Some "cg1")) hub1
     = Return "sb://ns.example.net/hub1/ConsumerGroups/cg1/Partitions/2".
Proof.
  split; [| split; [| split; [| split; [| split; [| repeat split]]]]].
  - intros config s cg Hcg.
    rewrite (receiver_address_partition config (Str s) (Some cg) s
               eq_refl eq_refl).
    now rewrite (group_given cg Hcg).
  - intros config n cg Hcg.
    rewrite (receiver_address_partition config (Number n) (Some cg)
               (NumberToString n) eq_refl eq_refl).
    now rewrite (group_given cg Hcg).
  - intros config s.
    now rewrite (receiver_address_partition config (Str s) None s
                   eq_refl eq_refl).
  - intros config n.
    now rewrite (receiver_address_partition config (Number n) None
                   (NumberToString n) eq_refl eq_refl).
  - exact string_or_number_inv.
Qed.

Lemma receiver_address_spec_witness :
  getEventHubReceiverAddress (Str "7") (Some "readers") hub1
  = (Return (entityPath hub1 ++ "/ConsumerGroups/" ++ "readers"
             ++ "/Partitions/" ++ "7"), hub1).
Proof.
  apply (proj1 receiver_address_spec hub1 "7" "readers").
  discriminate.
Defined.

End Addresses.

(** ** The receivers' required partitionId *)

Section Required.

(** Either the receivers' test rejects the partitionId, or both methods
    return. *)
Lemma receiver_cases (config : ConnectionConfig) (p : value) (cg : option string) :
  (is_string_or_number p = false
   /\ getEventHubReceiverAddress p cg config
      = (Throw (TypeError required_message), config)
   /\ getEventHubReceiverAudience p cg config
      = (Throw (TypeError required_message), config))
  \/ (is_string_or_number p = true
      /\ exists a,
          getEventHubReceiverAddress p cg config = (Return a, config)
          /\ getEventHubReceiverAudience p cg config
             = (Return (endpoint config ++ a), config)).
Proof.
  destruct (is_string_or_number p) eqn:Hp.
  - right. split; [reflexivity |].
    destruct (ToString_defined p Hp) as [id Hid].
    eexists. split.
    + now apply receiver_address_partition with (id := id).
    + now apply receiver_audience_partition with (id := id).
  - left. split; [reflexivity |]. split.
    + now apply receiver_address_rejects.
    + now apply receiver_audience_rejects.
Qed.

(** [undefined] is not a string or a number. *)
Lemma mistyped_iff (p : value) :
  p = Undefined \/ is_string_or_number p = false
  <-> is_string_or_number p = false.
Proof.
  split; [intros [-> | H]; [reflexivity | exact H] | now right].
Qed.

(** C2: getEventHubReceiverAddress and getEventHubReceiverAudience throw
    exactly when partitionId is undefined or is neither a string nor a
    number.  What they throw is a TypeError whose message names the
    parameter and the two expected types: it reads
    'partitionId' is a required parameter and must be of type 'string' or
    'number', the quoted sentence of the claim with the three names in
    single quotes.  On every other input they return a string. *)
Theorem receiver_requires_partitionId
    (config : ConnectionConfig) (p : value) (cg : option string) :
  (outcome (getEventHubReceiverAddress p cg) config
   = Throw (TypeError required_message)
   <-> (p = Undefined \/ is_string_or_number p = false))
  /\ (outcome (getEventHubReceiverAudience p cg) config
      = Throw (TypeError required_message)
      <-> (p = Undefined \/ is_string_or_number p = false))
  /\ ((exists a, outcome (getEventHubReceiverAddress p cg) config = Return a)
      <-> ~ (p = Undefined \/ is_string_or_number p = false))
  /\ ((exists a, outcome (getEventHubReceiverAudience p cg) config = Return a)
      <-> ~ (p = Undefined \/ is_string_or_number p = false))
  /\ name (TypeError required_message) = "TypeError"
  /\ is_infix "partitionId" required_message = true
  /\ is_infix "string" required_message = true
  /\ is_infix "number" required_message = true
  /\ remove_char "'" required_message
     = "partitionId is a required parameter and must be of type string or number".
Proof.
  unfold outcome. rewrite mistyped_iff.
  destruct (receiver_cases config p cg)
    as [(Hp & Ha & Hu) | (Hp & a & Ha & Hu)]; rewrite Ha, Hu, Hp; simpl.
  - repeat split; try reflexivity; try discriminate; try congruence.
    + intros [a H]. discriminate.
    + intros [a H]. discriminate.
  - repeat split; try reflexivity; try discriminate; eauto.
Qed.

End Required.

(** ** Audiences *)

Section Audiences.

(** Either the senders' test rejects the partitionId, or both methods
    return, the audience being the endpoint followed by the address. *)
Lemma sender_cases (config : ConnectionConfig) (p : value) :
  (getEventHubSenderAddress p config = (Throw (TypeError type_message), config)
   /\ getEventHubSenderAudience p config
      = (Throw (TypeError type_message), config))
  \/ (exists a,
        getEventHubSenderAddress p config = (Return a, config)
        /\ getEventHubSenderAudience p config
           = (Return (endpoint config ++ a), config)).
Proof.
  destruct (loose_eq_undefined p) eqn:Hu.
  - right. eexists. split.
    + now apply sender_address_absent.
    + now apply sender_audience_absent.
  - destruct (is_string_or_number p) eqn:Hp.
    + right. destruct (ToString_defined p Hp) as [id Hid].
      eexists. split.
      * now apply sender_address_partition with (id := id).
      * now apply sender_audience_partition with (id := id).
    + left. split.
      * now apply sender_address_rejects.
      * now apply sender_audience_rejects.
Qed.

(** C3: whenever an address method returns, the audience method of the same
    kind, called with the same arguments, returns the endpoint followed by
    that address: for the sender (partitionId given or not), for the
    receiver, and for the management pair. *)
Theorem audience_is_endpoint_then_address
    (config : ConnectionConfig) (p : value) (cg : option string) (a : string) :
  (outcome (getEventHubSenderAddress p) config = Return a ->
   outcome (getEventHubSenderAudience p) config = Return (endpoint config ++ a))
  /\ (outcome (getEventHubReceiverAddress p cg) config = Return a ->
      outcome (getEventHubReceiverAudience p cg) config
      = Return (endpoint config ++ a))
  /\ (outcome getEventHubManagementAddress config = Return a ->
      outcome getEventHubManagementAudience config
      = Return (endpoint config ++ a)).
Proof.
  unfold outcome. repeat split.
  - destruct (sender_cases config p) as [(Ha & _) | (b & Ha & Hu)];
      rewrite Ha; simpl; [discriminate |].
    intros [= ->]. now rewrite Hu.
  - destruct (receiver_cases config p cg)
      as [(_ & Ha & _) | (_ & b & Ha & Hu)];
      rewrite Ha; simpl; [discriminate |].
    intros [= ->]. now rewrite Hu.
  - simpl. now intros [= <-].
Qed.

Lemma audience_is_endpoint_then_address_witness :
  outcome (getEventHubSenderAudience Undefined) hub1
  = Return (endpoint hub1 ++ "hub1")
  /\ outcome (getEventHubReceiverAudience (Str "0") (Some "cg1")) hub1
     = Return (endpoint hub1 ++ "hub1/ConsumerGroups/cg1/Partitions/0")
  /\ outcome getEventHubManagementAudience hub1
     = Return (endpoint hub1 ++ "hub1/$management").
Proof.
  split; [| split].
  - apply (proj1 (audience_is_endpoint_then_address
                    hub1 Undefined None "hub1")).
    reflexivity.
  - apply (proj1 (proj2 (audience_is_endpoint_then_address
                           hub1 (Str "0") (Some "cg1")
                           "hub1/ConsumerGroups/cg1/Partitions/0"))).
    reflexivity.
  - apply (proj2 (proj2 (audience_is_endpoint_then_address
                           hub1 Undefined None "hub1/$management"))).
    reflexivity.
Defined.

(** C7: getEventHubManagementAddress returns entityPath followed by
    /$management, and getEventHubManagementAudience returns endpoint, then
    entityPath, then /$management.  They take no argument, test nothing, and
    on every config they return: neither can throw. *)
Theorem management_spec (config : ConnectionConfig) :
  getEventHubManagementAddress config
  = (Return (entityPath config ++ "/$management"), config)
  /\ getEventHubManagementAudience config
     = (Return (endpoint config ++ entityPath config ++ "/$management"), config)
  /\ (forall e, outcome getEventHubManagementAddress config <> Throw e)
  /\ (forall e, outcome getEventHubManagementAudience config <> Throw e).
Proof.
  repeat split; intros e; discriminate.
Qed.

End Audiences.

(** ** Values the type test rejects, and values it lets through *)

Section TypeTest.

(** What is not loosely equal to [undefined] is neither [undefined] nor
    [null], and conversely. *)
Lemma present_iff (p : value) :
  loose_eq_undefined p = false <-> p <> Undefined /\ p <> Null.
Proof.
  destruct p; simpl; split; try (intros [H1 H2]); try intros H;
    try discriminate; try congruence; split; discriminate.
Qed.

(** C5, as the spec has it, fails on the code: [null] is a provided value
    that is neither a string nor an integer, and getEventHubSenderAddress
    returns on it; NaN is a number that is not an integer, and
    getEventHubReceiverAddress returns on it. *)
Lemma type_check_counterexample :
  (Null <> Undefined
   /\ is_string Null = false
   /\ is_integer Null = false
   /\ outcome (getEventHubSenderAddress Null) hub1 = Return "hub1"
   /\ ~ throws_TypeError (getEventHubSenderAddress Null) hub1)
  /\ (Number NaN <> Undefined
      /\ is_string (Number NaN) = false
      /\ is_integer (Number NaN) = false
      /\ outcome (getEventHubReceiverAddress (Number NaN) None) hub1
         = Return "hub1/ConsumerGroups/$default/Partitions/NaN"
      /\ ~ throws_TypeError (getEventHubReceiverAddress (Number NaN) None) hub1).
Proof.
  repeat split; try discriminate; intros [msg H]; discriminate H.
Qed.

(** C5, amended: for every provided partitionId whose run-time type is
    neither string nor number (any boolean, object or array among them) the
    two receiver methods throw a TypeError whatever the consumer group, and
    the two sender methods throw a TypeError unless the value is null, which
    they take for a missing argument.  Every number is let through by all
    four, integral or not. *)
Theorem type_check_spec :
  (forall (config : ConnectionConfig) (p : value) (cg : option string),
      p <> Undefined -> is_string_or_number p = false ->
      outcome (getEventHubReceiverAddress p cg) config
      = Throw (TypeError required_message)
      /\ outcome (getEventHubReceiverAudience p cg) config
         = Throw (TypeError required_message)
      /\ (p <> Null ->
          outcome (getEventHubSenderAddress p) config
          = Throw (TypeError type_message)
          /\ outcome (getEventHubSenderAudience p) config
             = Throw (TypeError type_message)))
  /\ (forall b, is_string_or_number (Boolean b) = false)
  /\ (forall props, is_string_or_number (Object props) = false)
  /\ (forall elems, is_string_or_number (Array elems) = false)
  /\ (forall (config : ConnectionConfig) (n : number),
         exists a,
           outcome (getEventHubSenderAddress (Number n)) config = Return a
           /\ outcome (getEventHubSenderAudience (Number n)) config
              = Return (endpoint config ++ a))
  /\ (forall (config : ConnectionConfig) (n : number) (cg : option string),
         exists a,
           outcome (getEventHubReceiverAddress (Number n) cg) config = Return a
           /\ outcome (getEventHubReceiverAudience (Number n) cg) config
              = Return (endpoint config ++ a)).
Proof.
  split; [| split; [| split; [| split; [| split]]]].
  - intros config p cg Hu Hp. unfold outcome.
    rewrite (receiver_address_rejects config p cg Hp),
      (receiver_audience_rejects config p cg Hp).
    split; [reflexivity | split; [reflexivity |]].
    intros Hn.
    assert (Hl : loose_eq_undefined p = false)
      by (apply present_iff; now split).
    now rewrite (sender_address_rejects config p Hl Hp),
      (sender_audience_rejects config p Hl Hp).
  - reflexivity.
  - reflexivity.
  - reflexivity.
  - intros config n. unfold outcome.
    destruct (sender_cases config (Number n)) as [(Ha & _) | (a & Ha & Hu)].
    + discriminate Ha.
    + exists a. now rewrite Ha, Hu.
  - intros config n cg. unfold outcome.
    destruct (receiver_cases config (Number n) cg)
      as [(Hp & _) | (_ & a & Ha & Hu)].
    + discriminate Hp.
    + exists a. now rewrite Ha, Hu.
Qed.

Lemma type_check_spec_witness :
  outcome (getEventHubReceiverAddress (Boolean true) (Some "cg1")) hub1
  = Throw (TypeError required_message)
  /\ outcome (getEventHubReceiverAudience (Boolean true) (Some "cg1")) hub1
     = Throw (TypeError required_message)
  /\ (Boolean true <> Null ->
      outcome (getEventHubSenderAddress (Boolean true)) hub1
      = Throw (TypeError type_message)
      /\ outcome (getEventHubSenderAudience (Boolean true)) hub1
         = Throw (TypeError type_message)).
Proof.
  apply (proj1 type_check_spec hub1 (Boolean true) (Some "cg1")).
  - discriminate.
  - reflexivity.
Defined.

(** C9: the senders take [null] for a missing partitionId, since their test
    for presence is a loose comparison with [undefined]: they return what
    they return without an argument, and do not throw.  The receivers take
    [null] for a missing required parameter and throw the TypeError of their
    test, whatever the consumer group. *)
Theorem null_partitionId (config : ConnectionConfig) (cg : option string) :
  loose_eq_undefined Null = true
  /\ getEventHubSenderAddress Null config
     = getEventHubSenderAddress Undefined config
  /\ getEventHubSenderAddress Null config = (Return (entityPath config), config)
  /\ getEventHubSenderAudience Null config
     = getEventHubSenderAudience Undefined config
  /\ getEventHubSenderAudience Null config
     = (Return (endpoint config ++ entityPath config), config)
  /\ getEventHubReceiverAddress Null cg config
     = (Throw (TypeError required_message), config)
  /\ getEventHubReceiverAudience Null cg config
     = (Throw (TypeError required_message), config).
Proof.
  repeat split.
Qed.

(** C10: the empty string and the number 0 are accepted as partitionId by
    the two senders and the two receivers: presence is a comparison with
    [undefined], not a test of truthiness, and both values pass the type
    test.  getEventHubSenderAddress("") is entityPath/Partitions/ and
    getEventHubReceiverAddress(0) is
    entityPath/ConsumerGroups/$default/Partitions/0; no method checks that
    partitionId is non-empty. *)
Theorem empty_and_zero_partitionId (config : ConnectionConfig) :
  getEventHubSenderAddress (Str "") config
  = (Return (entityPath config ++ "/Partitions/"), config)
  /\ getEventHubSenderAudience (Str "") config
     = (Return (endpoint config ++ entityPath config ++ "/Partitions/"), config)
  /\ getEventHubReceiverAddress (Str "") None config
     = (Return (entityPath config ++ "/ConsumerGroups/$default/Partitions/"),
        config)
  /\ getEventHubReceiverAudience (Str "") None config
     = (Return (endpoint config ++ entityPath config
                ++ "/ConsumerGroups/$default/Partitions/"), config)
  /\ getEventHubSenderAddress (Number (Int 0)) config
     = (Return (entityPath config ++ "/Partitions/0"), config)
  /\ getEventHubSenderAudience (Number (Int 0)) config
     = (Return (endpoint config ++ entityPath config ++ "/Partitions/0"), config)
  /\ getEventHubReceiverAddress (Number (Int 0)) None config
     = (Return (entityPath config ++ "/ConsumerGroups/$default/Partitions/0"),
        config)
  /\ getEventHubReceiverAudience (Number (Int 0)) None config
     = (Return (endpoint config ++ entityPath config
                ++ "/ConsumerGroups/$default/Partitions/0"), config)
  /\ (forall cg, exists a b,
         outcome (getEventHubReceiverAddress (Str "") cg) config = Return a
         /\ outcome (getEventHubReceiverAddress (Number (Int 0)) cg) config
            = Return b).
Proof.
  split; [reflexivity |].
  split; [reflexivity |].
  split; [reflexivity |].
  split; [now rewrite (receiver_audience_partition
                         config (Str "") None "" eq_refl eq_refl) |].
  split; [reflexivity |].
  split; [reflexivity |].
  split; [reflexivity |].
  split; [now rewrite (receiver_audience_partition
                         config (Number (Int 0)) None "0" eq_refl eq_refl) |].
  intros cg. unfold outcome.
  rewrite (receiver_address_partition config (Str "") cg "" eq_refl eq_refl),
    (receiver_address_partition
       config (Number (Int 0)) cg "0" eq_refl eq_refl).
  do 2 eexists. split; reflexivity.
Qed.

End TypeTest.

(** ** The default consumer group *)

Section DefaultGroup.

(** C6: for a partitionId that is a string or a number,
    getEventHubReceiverAddress and getEventHubReceiverAudience called with
    the empty string as consumer group return what they return with the
    group left out: the empty string is falsy and is replaced by $default,
    as a missing group is. *)
Theorem empty_group_is_default (config : ConnectionConfig) (p : value) :
  is_string_or_number p = true ->
  exists id, ToString p = Some id
    /\ getEventHubReceiverAddress p (Some "") config
       = (Return (entityPath config
                  ++ "/ConsumerGroups/$default/Partitions/" ++ id), config)
    /\ getEventHubReceiverAddress p None config
       = getEventHubReceiverAddress p (Some "") config
    /\ getEventHubReceiverAudience p (Some "") config
       = (Return (endpoint config ++ entityPath config
                  ++ "/ConsumerGroups/$default/Partitions/" ++ id), config)
    /\ getEventHubReceiverAudience p None config
       = getEventHubReceiverAudience p (Some "") config.
Proof.
  intros Hp. destruct (ToString_defined p Hp) as [id Hid].
  exists id. split; [exact Hid |].
  split; [now rewrite (receiver_address_partition config p (Some "") id Hp Hid) |].
  split; [reflexivity |].
  split; [now rewrite (receiver_audience_partition config p (Some "") id Hp Hid) |].
  reflexivity.
Qed.

Lemma empty_group_is_default_witness :
  exists id, ToString (Number (Int 3)) = Some id
    /\ getEventHubReceiverAddress (Number (Int 3)) (Some "") hub1
       = (Return (entityPath hub1
                  ++ "/ConsumerGroups/$default/Partitions/" ++ id), hub1)
    /\ getEventHubReceiverAddress (Number (Int 3)) None hub1
       = getEventHubReceiverAddress (Number (Int 3)) (Some "") hub1
    /\ getEventHubReceiverAudience (Number (Int 3)) (Some "") hub1
       = (Return (endpoint hub1 ++ entityPath hub1
                  ++ "/ConsumerGroups/$default/Partitions/" ++ id), hub1)
    /\ getEventHubReceiverAudience (Number (Int 3)) None hub1
       = getEventHubReceiverAudience (Number (Int 3)) (Some "") hub1.
Proof.
  apply (empty_group_is_default hub1 (Number (Int 3))).
  reflexivity.
Defined.

End DefaultGroup.

(** ** Purity *)

Section Purity.

(** A call never writes to the config: the object after the call is the
    object before it, whether the call returned or threw. *)
Lemma invoke_preserves_config (call : Call) (config : ConnectionConfig) :
  after (invoke call) config = config.
Proof.
  unfold after.
  destruct call as [| | p | p | p cg | p cg]; simpl invoke.
  - reflexivity.
  - reflexivity.
  - destruct (sender_cases config p) as [(_ & ->) | (a & _ & ->)]; reflexivity.
  - destruct (sender_cases config p) as [(-> & _) | (a & -> & _)]; reflexivity.
  - destruct (receiver_cases config p cg)
      as [(_ & _ & ->) | (_ & a & _ & ->)]; reflexivity.
  - destruct (receiver_cases config p cg)
      as [(_ & -> & _) | (_ & a & -> & _)]; reflexivity.
Qed.

(** The completion of a call is a function of the call and of the two
    fields [endpoint] and [entityPath], and of nothing else in the config. *)
Lemma invoke_reads_two_fields (call : Call) (c1 c2 : ConnectionConfig) :
  endpoint c1 = endpoint c2 -> entityPath c1 = entityPath c2 ->
  outcome (invoke call) c1 = outcome (invoke call) c2.
Proof.
  intros He Hp. unfold outcome.
  destruct call as [| | p | p | p cg | p cg]; simpl invoke.
  - simpl. now rewrite He, Hp.
  - simpl. now rewrite Hp.
  - destruct (loose_eq_undefined p) eqn:Hu.
    + rewrite !sender_audience_absent by exact Hu. simpl. now rewrite He, Hp.
    + destruct (is_string_or_number p) eqn:Hs.
      * destruct (ToString_defined p Hs) as [id Hid].
        rewrite !(sender_audience_partition _ p id Hs Hid).
        simpl. now rewrite He, Hp.
      * now rewrite !sender_audience_rejects.
  - destruct (loose_eq_undefined p) eqn:Hu.
    + rewrite !sender_address_absent by exact Hu. simpl. now rewrite Hp.
    + destruct (is_string_or_number p) eqn:Hs.
      * destruct (ToString_defined p Hs) as [id Hid].
        rewrite !(sender_address_partition _ p id Hs Hid).
        simpl. now rewrite Hp.
      * now rewrite !sender_address_rejects.
  - destruct (is_string_or_number p) eqn:Hs.
    + destruct (ToString_defined p Hs) as [id Hid].
      rewrite !(receiver_audience_partition _ p cg id Hs Hid).
      simpl. now rewrite He, Hp.
    + now rewrite !receiver_audience_rejects.
  - destruct (is_string_or_number p) eqn:Hs.
    + destruct (ToString_defined p Hs) as [id Hid].
      rewrite !(receiver_address_partition _ p cg id Hs Hid).
      simpl. now rewrite Hp.
    + now rewrite !receiver_address_rejects.
Qed.

(** C8: each of the six methods is deterministic and free of side effects.
    Two calls of the same method with the same arguments, on configs with the
    same endpoint and the same entityPath, end the same way (same string
    returned, or same error thrown), whatever else the configs hold; and a
    call leaves the config, its endpoint and entityPath included, as it
    found it, so that calling again gives the same result again. *)
Theorem calls_are_pure (call : Call) (c1 c2 : ConnectionConfig) :
  endpoint c1 = endpoint c2 -> entityPath c1 = entityPath c2 ->
  outcome (invoke call) c1 = outcome (invoke call) c2
  /\ after (invoke call) c1 = c1
  /\ endpoint (after (invoke call) c1) = endpoint c1
  /\ entityPath (after (invoke call) c1) = entityPath c1
  /\ outcome (invoke call) (after (invoke call) c1) = outcome (invoke call) c1.
Proof.
  intros He Hp. rewrite !invoke_preserves_config.
  split; [now apply invoke_reads_two_fields | repeat split].
Qed.

Lemma calls_are_pure_witness :
  outcome (invoke (ReceiverAudience (Number (Int 2)) (Some "cg1"))) hub1
  = outcome (invoke (ReceiverAudience (Number (Int 2)) (Some "cg1"))) hub1'
  /\ after (invoke (ReceiverAudience (Number (Int 2)) (Some "cg1"))) hub1 = hub1
  /\ endpoint (after (invoke (ReceiverAudience (Number (Int 2)) (Some "cg1")))
                 hub1) = endpoint hub1
  /\ entityPath (after (invoke (ReceiverAudience (Number (Int 2)) (Some "cg1")))
                   hub1) = entityPath hub1
  /\ outcome (invoke (ReceiverAudience (Number (Int 2)) (Some "cg1")))
       (after (invoke (ReceiverAudience (Number (Int 2)) (Some "cg1"))) hub1)
     = outcome (invoke (ReceiverAudience (Number (Int 2)) (Some "cg1"))) hub1.
Proof.
  apply (calls_are_pure
           (ReceiverAudience (Number (Int 2)) (Some "cg1")) hub1 hub1');
    reflexivity.
Defined.

End Purity.

(** ** More on strings *)

Section Cancellation.

Lemma append_cancel_l (a b c : string) : a ++ b = a ++ c -> b = c.
Proof.
  induction a as [| ch a IH]; simpl; intros H.
  - exact H.
  - injection H as H. now apply IH.
Qed.

Lemma append_nil_r (a : string) : a ++ "" = a.
Proof.
  induction a as [| ch a IH]; simpl; [reflexivity | now rewrite IH].
Qed.

(** A string is not itself followed by something. *)
Lemma append_self_inv (a b : string) : a = a ++ b -> b = "".
Proof.
  intros H. rewrite <- (append_nil_r a) in H at 1.
  symmetry. now apply append_cancel_l with (a := a).
Qed.

Lemma prefix_append (a b : string) : String.prefix a (a ++ b) = true.
Proof.
  induction a as [| ch a IH]; simpl.
  - now destruct b.
  - destruct (ascii_dec ch ch) as [_ | Hne]; [exact IH | now destruct Hne].
Qed.

(** Two strings without [ch], each followed by [ch] and a rest: equal wholes
    have equal parts, since the first [ch] marks where the first part ends. *)
Lemma split_at_first (ch : ascii) (a1 a2 b1 b2 : string) :
  has_char ch a1 = false -> has_char ch a2 = false ->
  a1 ++ String ch b1 = a2 ++ String ch b2 ->
  a1 = a2 /\ b1 = b2.
Proof.
  revert a2. induction a1 as [| x a1 IH]; intros [| y a2]; simpl;
    intros H1 H2 H.
  - injection H as H. now split.
  - injection H as Hc _. subst y.
    now rewrite Ascii.eqb_refl in H2.
  - injection H as Hc _. subst x.
    now rewrite Ascii.eqb_refl in H1.
  - injection H as Hc H. subst y.
    apply orb_false_iff in H1 as [_ H1].
    apply orb_false_iff in H2 as [_ H2].
    destruct (IH a2 H1 H2 H) as [-> ->]. now split.
Qed.

End Cancellation.

(** ** When the senders throw, and what a call can throw at all *)

Section Errors.

(** The senders reject a value that is present and mistyped, and return on
    every other. *)
Lemma sender_trichotomy (config : ConnectionConfig) (p : value) :
  (loose_eq_undefined p = false /\ is_string_or_number p = false
   /\ getEventHubSenderAddress p config
      = (Throw (TypeError type_message), config)
   /\ getEventHubSenderAudience p config
      = (Throw (TypeError type_message), config))
  \/ (~ (loose_eq_undefined p = false /\ is_string_or_number p = false)
      /\ exists a,
          getEventHubSenderAddress p config = (Return a, config)
          /\ getEventHubSenderAudience p config
             = (Return (endpoint config ++ a), config)).
Proof.
  destruct (loose_eq_undefined p) eqn:Hu.
  - right. split; [intros [H _]; discriminate H |].
    eexists. split.
    + now apply sender_address_absent.
    + now apply sender_audience_absent.
  - destruct (is_string_or_number p) eqn:Hs.
    + right. split; [intros [_ H]; discriminate H |].
      destruct (ToString_defined p Hs) as [id Hid].
      eexists. split.
      * now apply sender_address_partition with (id := id).
      * now apply sender_audience_partition with (id := id).
    + left. repeat split.
      * now apply sender_address_rejects.
      * now apply sender_audience_rejects.
Qed.

(** X1: getEventHubSenderAddress and getEventHubSenderAudience throw exactly
    when partitionId is neither undefined nor null and is neither a string
    nor a number; what they throw is the TypeError with the message
    'partitionId' must be of type 'string' or 'number'.  On every other
    input both return, the audience being the endpoint followed by the
    address. *)
Theorem sender_rejects_iff (config : ConnectionConfig) (p : value) :
  (outcome (getEventHubSenderAddress p) config = Throw (TypeError type_message)
   <-> (p <> Undefined /\ p <> Null /\ is_string_or_number p = false))
  /\ (outcome (getEventHubSenderAudience p) config
      = Throw (TypeError type_message)
      <-> (p <> Undefined /\ p <> Null /\ is_string_or_number p = false))
  /\ ((exists a,
          outcome (getEventHubSenderAddress p) config = Return a
          /\ outcome (getEventHubSenderAudience p) config
             = Return (endpoint config ++ a))
      <-> ~ (p <> Undefined /\ p <> Null /\ is_string_or_number p = false)).
Proof.
  assert (Hc : (p <> Undefined /\ p <> Null /\ is_string_or_number p = false)
               <-> (loose_eq_undefined p = false
                    /\ is_string_or_number p = false)).
  { rewrite present_iff. tauto. }
  rewrite Hc. unfold outcome.
  destruct (sender_trichotomy config p)
    as [(Hu & Hs & -> & ->) | (Hn & a & -> & ->)]; cbn [fst].
  - split; [| split].
    + split; [now split | reflexivity].
    + split; [now split | reflexivity].
    + split.
      * intros [b [H _]]. discriminate H.
      * intros H. exfalso. apply H. now split.
  - split; [| split].
    + split; [discriminate | intros H; now destruct (Hn H)].
    + split; [discriminate | intros H; now destruct (Hn H)].
    + split; [intros _; exact Hn |].
      intros _. exists a. now split.
Qed.

(** X2: whatever the method and its arguments, a call that throws throws one
    of two errors: the senders' TypeError or the receivers' TypeError.  The
    two management methods never throw, and no method ever fails in
    converting partitionId to a string: the conversion is reached with a
    string or a number only. *)
Theorem only_two_errors (call : Call) (config : ConnectionConfig) (e : error) :
  outcome (invoke call) config = Throw e ->
  match call with
  | ManagementAudience | ManagementAddress => False
  | SenderAudience p | SenderAddress p =>
      e = TypeError type_message /\ is_string_or_number p = false
  | ReceiverAudience p _ | ReceiverAddress p _ =>
      e = TypeError required_message /\ is_string_or_number p = false
  end.
Proof.
  unfold outcome.
  destruct call as [| | p | p | p cg | p cg]; simpl invoke.
  - discriminate.
  - discriminate.
  - destruct (loose_eq_undefined p) eqn:Hu.
    + now rewrite (sender_audience_absent config p Hu).
    + destruct (is_string_or_number p) eqn:Hs.
      * destruct (ToString_defined p Hs) as [id Hid].
        now rewrite (sender_audience_partition config p id Hs Hid).
      * rewrite (sender_audience_rejects config p Hu Hs). simpl.
        intros [= <-]. now split.
  - destruct (loose_eq_undefined p) eqn:Hu.
    + now rewrite (sender_address_absent config p Hu).
    + destruct (is_string_or_number p) eqn:Hs.
      * destruct (ToString_defined p Hs) as [id Hid].
        now rewrite (sender_address_partition config p id Hs Hid).
      * rewrite (sender_address_rejects config p Hu Hs). simpl.
        intros [= <-]. now split.
  - destruct (receiver_cases config p cg)
      as [(Hp & _ & ->) | (_ & a & _ & ->)]; simpl.
    + intros [= <-]. now split.
    + discriminate.
  - destruct (receiver_cases config p cg)
      as [(Hp & -> & _) | (_ & a & -> & _)]; simpl.
    + intros [= <-]. now split.
    + discriminate.
Qed.

Lemma only_two_errors_witness :
  TypeError type_message = TypeError type_message
  /\ is_string_or_number (Array [Str "0"]) = false.
Proof.
  apply (only_two_errors (SenderAddress (Array [Str "0"])) hub1
           (TypeError type_message)).
  reflexivity.
Defined.

End Errors.

(** ** Which calls give the same address *)

Section SameAddress.

Variable config : ConnectionConfig.

(** Equal addresses of accepted partition ids come from equal conversions. *)
Lemma sender_address_id (p q : value) (i j : string) :
  is_string_or_number p = true -> ToString p = Some i ->
  is_string_or_number q = true -> ToString q = Some j ->
  outcome (getEventHubSenderAddress p) config
  = outcome (getEventHubSenderAddress q) config ->
  i = j.
Proof.
  intros Hp Hi Hq Hj. unfold outcome.
  rewrite (sender_address_partition config p i Hp Hi),
    (sender_address_partition config q j Hq Hj). cbn [fst].
  intros [= H].
  apply append_cancel_l in H. now apply (append_cancel_l "/Partitions/").
Qed.

Lemma receiver_address_id (p q : value) (cg : option string) (i j : string) :
  is_string_or_number p = true -> ToString p = Some i ->
  is_string_or_number q = true -> ToString q = Some j ->
  outcome (getEventHubReceiverAddress p cg) config
  = outcome (getEventHubReceiverAddress q cg) config ->
  i = j.
Proof.
  intros Hp Hi Hq Hj. unfold outcome.
  rewrite (receiver_address_partition config p cg i Hp Hi),
    (receiver_address_partition config q cg j Hq Hj). cbn [fst].
  intros [= H].
  apply append_cancel_l in H.
  apply (append_cancel_l "/ConsumerGroups/") in H.
  apply append_cancel_l in H.
  now apply (append_cancel_l "/Partitions/").
Qed.

(** The audience determines the address. *)
Lemma sender_audience_address (p q : value) :
  outcome (getEventHubSenderAudience p) config
  = outcome (getEventHubSenderAudience q) config ->
  outcome (getEventHubSenderAddress p) config
  = outcome (getEventHubSenderAddress q) config.
Proof.
  unfold outcome.
  destruct (sender_trichotomy config p)
    as [(_ & _ & -> & ->) | (_ & a & -> & ->)];
    destruct (sender_trichotomy config q)
      as [(_ & _ & -> & ->) | (_ & b & -> & ->)]; cbn [fst];
    try reflexivity; try discriminate.
  intros [= H]. apply append_cancel_l in H. now subst.
Qed.

Lemma receiver_audience_address (p q : value) (cg dg : option string) :
  outcome (getEventHubReceiverAudience p cg) config
  = outcome (getEventHubReceiverAudience q dg) config ->
  outcome (getEventHubReceiverAddress p cg) config
  = outcome (getEventHubReceiverAddress q dg) config.
Proof.
  unfold outcome.
  destruct (receiver_cases config p cg)
    as [(_ & -> & ->) | (_ & a & -> & ->)];
    destruct (receiver_cases config q dg)
      as [(_ & -> & ->) | (_ & b & -> & ->)]; cbn [fst];
    try reflexivity; try discriminate.
  intros [= H]. apply append_cancel_l in H. now subst.
Qed.

(** X3: a partitionId that the methods accept counts only through its
    conversion to a string.  For two accepted values, each of the four
    sender and receiver methods returns the same string on both exactly when
    the two convert to the same string: the number 2 and the string "2"
    name the same partition, and two values that print differently never
    share an address or an audience. *)
Theorem same_partition_iff (p q : value) (cg : option string) :
  is_string_or_number p = true -> is_string_or_number q = true ->
  (outcome (getEventHubSenderAddress p) config
   = outcome (getEventHubSenderAddress q) config
   <-> ToString p = ToString q)
  /\ (outcome (getEventHubSenderAudience p) config
      = outcome (getEventHubSenderAudience q) config
      <-> ToString p = ToString q)
  /\ (outcome (getEventHubReceiverAddress p cg) config
      = outcome (getEventHubReceiverAddress q cg) config
      <-> ToString p = ToString q)
  /\ (outcome (getEventHubReceiverAudience p cg) config
      = outcome (getEventHubReceiverAudience q cg) config
      <-> ToString p = ToString q).
Proof.
  intros Hp Hq.
  destruct (ToString_defined p Hp) as [i Hi].
  destruct (ToString_defined q Hq) as [j Hj].
  assert (Hsa : i = j ->
                outcome (getEventHubSenderAddress p) config
                = outcome (getEventHubSenderAddress q) config).
  { intros ->. unfold outcome.
    now rewrite (sender_address_partition config p j Hp Hi),
      (sender_address_partition config q j Hq Hj). }
  assert (Hsu : i = j ->
                outcome (getEventHubSenderAudience p) config
                = outcome (getEventHubSenderAudience q) config).
  { intros ->. unfold outcome.
    now rewrite (sender_audience_partition config p j Hp Hi),
      (sender_audience_partition config q j Hq Hj). }
  assert (Hra : i = j ->
                outcome (getEventHubReceiverAddress p cg) config
                = outcome (getEventHubReceiverAddress q cg) config).
  { intros ->. unfold outcome.
    now rewrite (receiver_address_partition config p cg j Hp Hi),
      (receiver_address_partition config q cg j Hq Hj). }
  assert (Hru : i = j ->
                outcome (getEventHubReceiverAudience p cg) config
                = outcome (getEventHubReceiverAudience q cg) config).
  { intros ->. unfold outcome.
    now rewrite (receiver_audience_partition config p cg j Hp Hi),
      (receiver_audience_partition config q cg j Hq Hj). }
  rewrite Hi, Hj.
  split; [| split; [| split]]; (split; [intros H; f_equal | intros [= H]; auto]).
  - now apply (sender_address_id p q i j).
  - apply (sender_address_id p q i j); auto.
    now apply sender_audience_address.
  - now apply (receiver_address_id p q cg i j).
  - apply (receiver_address_id p q cg i j); auto.
    now apply receiver_audience_address.
Qed.

End SameAddress.

Lemma same_partition_iff_witness :
  outcome (getEventHubReceiverAudience (Number (Int 2)) (Some "cg1")) hub1
  = outcome (getEventHubReceiverAudience (Str "2") (Some "cg1")) hub1.
Proof.
  apply (proj2 (proj2 (proj2
           (same_partition_iff hub1 (Number (Int 2)) (Str "2") (Some "cg1")
              eq_refl eq_refl)))).
  reflexivity.
Defined.

(** ** Consumer groups and partitions in one address *)

Section Groups.

Variable config : ConnectionConfig.

(** X5: a receiver address tells the consumer group and the partition apart
    when the groups hold no slash.  For two accepted partition ids and two
    non-empty groups without "/", equal receiver addresses (and equal
    receiver audiences) mean the same group and the same partition string. *)
Theorem receiver_address_injective (p q : value) (g h : string) :
  is_string_or_number p = true -> is_string_or_number q = true ->
  g <> "" -> h <> "" ->
  has_char "/" g = false -> has_char "/" h = false ->
  (outcome (getEventHubReceiverAddress p (Some g)) config
   = outcome (getEventHubReceiverAddress q (Some h)) config ->
   g = h /\ ToString p = ToString q)
  /\ (outcome (getEventHubReceiverAudience p (Some g)) config
      = outcome (getEventHubReceiverAudience q (Some h)) config ->
      g = h /\ ToString p = ToString q).
Proof.
  intros Hp Hq Hg Hh Sg Sh.
  destruct (ToString_defined p Hp) as [i Hi].
  destruct (ToString_defined q Hq) as [j Hj].
  assert (Ha : outcome (getEventHubReceiverAddress p (Some g)) config
               = outcome (getEventHubReceiverAddress q (Some h)) config ->
               g = h /\ ToString p = ToString q).
  { unfold outcome.
    rewrite (receiver_address_partition config p (Some g) i Hp Hi),
      (receiver_address_partition config q (Some h) j Hq Hj),
      (group_given g Hg), (group_given h Hh), Hi, Hj. cbn [fst].
    intros [= H].
    apply append_cancel_l in H.
    apply (append_cancel_l "/ConsumerGroups/") in H.
    destruct (split_at_first "/" g h ("Partitions/" ++ i) ("Partitions/" ++ j)
                Sg Sh H) as [-> H'].
    apply (append_cancel_l "Partitions/") in H'. now subst. }
  split; [exact Ha |].
  intros H. apply Ha. now apply receiver_audience_address.
Qed.

(** X6: nothing in a receiver address is escaped, so without that
    restriction two different pairs of group and partition can share an
    address: a slash-separated tail of the group reads as the head of the
    partition.  For a non-empty group g and any a and b, the partition
    a/Partitions/b in group g has the address of the partition b in group
    g/Partitions/a. *)
Theorem receiver_address_ambiguous (g a b : string) :
  g <> "" ->
  getEventHubReceiverAddress (Str (a ++ "/Partitions/" ++ b)) (Some g) config
  = getEventHubReceiverAddress (Str b) (Some (g ++ "/Partitions/" ++ a)) config.
Proof.
  intros Hg.
  assert (Hg' : g ++ "/Partitions/" ++ a <> "") by (now destruct g).
  rewrite (receiver_address_partition
             config (Str (a ++ "/Partitions/" ++ b)) (Some g)
             (a ++ "/Partitions/" ++ b) eq_refl eq_refl),
    (receiver_address_partition
       config (Str b) (Some (g ++ "/Partitions/" ++ a)) b eq_refl eq_refl),
    (group_given g Hg), (group_given _ Hg').
  rewrite !append_assoc.
  change (("/Partitions/" ++ a) ++ "/Partitions/" ++ b)
    with ("/Partitions/" ++ a ++ "/Partitions/" ++ b).
  reflexivity.
Qed.

End Groups.

Lemma receiver_address_injective_witness :
  "cg" = "cg" /\ ToString (Str "12") = ToString (Number (Int 12)).
Proof.
  apply (proj1 (receiver_address_injective
                  hub1 (Str "12") (Number (Int 12)) "cg" "cg"
                  eq_refl eq_refl
                  ltac:(discriminate) ltac:(discriminate)
                  eq_refl eq_refl)).
  reflexivity.
Defined.

Lemma receiver_address_ambiguous_witness :
  getEventHubReceiverAddress (Str ("0" ++ "/Partitions/" ++ "1")) (Some "cg") hub1
  = getEventHubReceiverAddress (Str "1") (Some ("cg" ++ "/Partitions/" ++ "0")) hub1.
Proof.
  apply (receiver_address_ambiguous hub1 "cg" "0" "1"). discriminate.
Defined.

(** ** The three kinds of address *)

Section Kinds.

Variable config : ConnectionConfig.

(** What the senders return, when they return. *)
Lemma sender_address_shape (p : value) (s : string) :
  outcome (getEventHubSenderAddress p) config = Return s ->
  s = entityPath config
  \/ exists id, s = entityPath config ++ "/Partitions/" ++ id.
Proof.
  unfold outcome. destruct (loose_eq_undefined p) eqn:Hu.
  - rewrite (sender_address_absent config p Hu). cbn [fst].
    intros [= <-]. now left.
  - destruct (is_string_or_number p) eqn:Hs.
    + destruct (ToString_defined p Hs) as [id Hid].
      rewrite (sender_address_partition config p id Hs Hid). cbn [fst].
      intros [= <-]. right. now exists id.
    + now rewrite (sender_address_rejects config p Hu Hs).
Qed.

(** What the receivers return, when they return. *)
Lemma receiver_address_shape (p : value) (cg : option string) (r : string) :
  outcome (getEventHubReceiverAddress p cg) config = Return r ->
  exists g id,
    r = entityPath config ++ "/ConsumerGroups/" ++ g ++ "/Partitions/" ++ id.
Proof.
  unfold outcome. destruct (is_string_or_number p) eqn:Hs.
  - destruct (ToString_defined p Hs) as [id Hid].
    rewrite (receiver_address_partition config p cg id Hs Hid). cbn [fst].
    intros [= <-]. do 2 eexists. reflexivity.
  - now rewrite (receiver_address_rejects config p cg Hs).
Qed.

(** X7: on one config the three kinds of address never coincide: whatever
    the arguments, a sender address is not a receiver address, and neither
    is the management address.  The same holds of the three kinds of
    audience. *)
Theorem address_kinds_disjoint
    (p q : value) (cg : option string) (s r : string) :
  outcome (getEventHubSenderAddress p) config = Return s ->
  outcome (getEventHubReceiverAddress q cg) config = Return r ->
  s <> r
  /\ outcome getEventHubManagementAddress config <> Return s
  /\ outcome getEventHubManagementAddress config <> Return r
  /\ outcome (getEventHubSenderAudience p) config
     <> outcome (getEventHubReceiverAudience q cg) config
  /\ outcome getEventHubManagementAudience config
     <> outcome (getEventHubSenderAudience p) config
  /\ outcome getEventHubManagementAudience config
     <> outcome (getEventHubReceiverAudience q cg) config.
Proof.
  intros Hs Hr.
  assert (Hsr : s <> r).
  { destruct (sender_address_shape p s Hs) as [-> | [i ->]];
      destruct (receiver_address_shape q cg r Hr) as (g & j & ->); intros H.
    - apply append_self_inv in H. discriminate H.
    - apply append_cancel_l in H. discriminate H. }
  assert (Hms : entityPath config ++ "/$management" <> s).
  { destruct (sender_address_shape p s Hs) as [-> | [i ->]]; intros H.
    - symmetry in H. apply append_self_inv in H. discriminate H.
    - apply append_cancel_l in H. discriminate H. }
  assert (Hmr : entityPath config ++ "/$management" <> r).
  { destruct (receiver_address_shape q cg r Hr) as (g & j & ->); intros H.
    apply append_cancel_l in H. discriminate H. }
  assert (Hsu : outcome (getEventHubSenderAudience p) config
                = Return (endpoint config ++ s)).
  { revert Hs. unfold outcome.
    destruct (sender_trichotomy config p)
      as [(_ & _ & -> & ->) | (_ & a & -> & ->)]; cbn [fst];
      [discriminate | now intros [= ->]]. }
  assert (Hru : outcome (getEventHubReceiverAudience q cg) config
                = Return (endpoint config ++ r)).
  { revert Hr. unfold outcome.
    destruct (receiver_cases config q cg)
      as [(_ & -> & ->) | (_ & a & -> & ->)]; cbn [fst];
      [discriminate | now intros [= ->]]. }
  rewrite Hsu, Hru. unfold outcome. cbn [fst getEventHubManagementAddress
    getEventHubManagementAudience bind read ret].
  repeat split; intros [= H]; try apply append_cancel_l in H; auto.
Qed.

(** X8: every address a method returns lies under the entity, and every
    audience under the endpoint and the entity: an address starts with
    entityPath, an audience with endpoint followed by entityPath. *)
Theorem results_start_with_entity
    (p : value) (cg : option string) (s : string) :
  (outcome (getEventHubSenderAddress p) config = Return s ->
   String.prefix (entityPath config) s = true)
  /\ (outcome (getEventHubReceiverAddress p cg) config = Return s ->
      String.prefix (entityPath config) s = true)
  /\ (outcome getEventHubManagementAddress config = Return s ->
      String.prefix (entityPath config) s = true)
  /\ (outcome (getEventHubSenderAudience p) config = Return s ->
      String.prefix (endpoint config ++ entityPath config) s = true)
  /\ (outcome (getEventHubReceiverAudience p cg) config = Return s ->
      String.prefix (endpoint config ++ entityPath config) s = true)
  /\ (outcome getEventHubManagementAudience config = Return s ->
      String.prefix (endpoint config ++ entityPath config) s = true).
Proof.
  assert (Hself : forall a, String.prefix a a = true).
  { intros a. rewrite <- (append_nil_r a) at 2. apply prefix_append. }
  split; [| split; [| split; [| split; [| split]]]].
  - intros H. destruct (sender_address_shape p s H) as [-> | [i ->]];
      [apply Hself | apply prefix_append].
  - intros H. destruct (receiver_address_shape p cg s H) as (g & i & ->).
    apply prefix_append.
  - intros [= <-]. apply prefix_append.
  - unfold outcome.
    destruct (sender_trichotomy config p)
      as [(_ & _ & Ha & ->) | (_ & a & Ha & ->)]; cbn [fst];
      [discriminate |].
    intros [= <-].
    assert (Hs : outcome (getEventHubSenderAddress p) config = Return a)
      by (unfold outcome; now rewrite Ha).
    destruct (sender_address_shape p a Hs) as [-> | [i ->]];
      [apply Hself | rewrite <- append_assoc; apply prefix_append].
  - unfold outcome.
    destruct (receiver_cases config p cg)
      as [(_ & Ha & ->) | (_ & a & Ha & ->)]; cbn [fst];
      [discriminate |].
    intros [= <-].
    assert (Hs : outcome (getEventHubReceiverAddress p cg) config = Return a)
      by (unfold outcome; now rewrite Ha).
    destruct (receiver_address_shape p cg a Hs) as (g & i & ->).
    rewrite <- append_assoc. apply prefix_append.
  - intros [= <-].
    change (endpoint config ++ entityPath config ++ "/$management")
      with (endpoint config ++ (entityPath config ++ "/$management")).
    rewrite <- append_assoc. apply prefix_append.
Qed.

End Kinds.

Lemma address_kinds_disjoint_witness :
  "hub1/Partitions/2" <> "hub1/ConsumerGroups/$default/Partitions/2".
Proof.
  apply (proj1 (address_kinds_disjoint hub1 (Number (Int 2)) (Str "2") None
                  "hub1/Partitions/2"
                  "hub1/ConsumerGroups/$default/Partitions/2"
                  eq_refl eq_refl)).
Defined.

Lemma results_start_with_entity_witness :
  String.prefix (endpoint hub1 ++ entityPath hub1)
    "sb://ns.example.net/hub1/ConsumerGroups/cg1/Partitions/2" = true.
Proof.
  apply (proj1 (proj2 (proj2 (proj2 (proj2
           (results_start_with_entity hub1 (Number (Int 2)) (Some "cg1")
              "sb://ns.example.net/hub1/ConsumerGroups/cg1/Partitions/2")))))).
  reflexivity.
Defined.
